(** * commons-go, package [command]: running external commands and
      post-processing their captured output.

    A shallow embedding of [command/command.go] and the properties of its
    trim post-modifier and of the [Run*] operations of [execCommand].

    Conventions of the embedding.
    - A Go [string] is a [string] of the standard library, [[]byte] is
      [list byte], and the conversion [string(bytes)], which copies the
      bytes, is [string_of_list_byte].
    - A Go [error] value is [option error]: [None] is [nil].  Receivers,
      contexts and modifiers are not nil.
    - The host operating system (package [os/exec]) is not part of the
      repository.  It is a parameter of the development: an arbitrary state
      type [World] and arbitrary transition functions for [Cmd.Run],
      [Cmd.Output] and [Cmd.CombinedOutput].  Every theorem about a [Run*]
      operation holds for all of them. *)

From Stdlib Require Import String Ascii List ZArith Lia Bool DecimalString.
From Stdlib.Strings Require Import Byte.
From Stdlib Require Import DecimalZ DecimalPos.
Import ListNotations.
Open Scope string_scope.

(* ================================================================== *)
(** * Strings *)



(* ------------------------------------------------------------------ *)
(** ** Package [strings] of the Go library

    [strings.TrimLeft], [strings.TrimRight] and [strings.Trim] remove the
    characters of [cutset] from the ends of [s].  The Go functions return
    [s] at once when [s] or [cutset] is empty and otherwise loop from the
    end(s) of [s], testing at each step whether the character there occurs
    in [cutset].

    A character of the model is one element of the string.  That is what
    Go's loops step over when [cutset] is ASCII (they then go byte by
    byte); for any other [cutset] Go steps over the UTF-8 encodings of code
    points, a byte that starts no valid encoding counting as one character,
    and the model reads each such unit as one element. *)
Module strings.

(** [cutset] contains the character [c]. *)
Fixpoint contains (cutset : string) (c : ascii) : bool :=
  match cutset with
  | EmptyString => false
  | String d rest => Ascii.eqb d c || contains rest c
  end.

(** [for len(s) > 0 && contains(s[0]) { s = s[1:] }; return s] *)
Fixpoint trimLeftLoop (cutset s : string) : string :=
  match s with
  | EmptyString => s
  | String c rest => if contains cutset c then trimLeftLoop cutset rest else s
  end.

(** [for len(s) > 0 && contains(s[len(s)-1]) { s = s[:len(s)-1] }; return s];
    [n] is [len(s)], which decreases by one at each turn of the loop. *)
Fixpoint trimRightLoop (cutset s : string) (n : nat) : string :=
  match n with
  | 0 => s
  | S k =>
      match get k s with
      | Some c =>
          if contains cutset c then trimRightLoop cutset (substring 0 k s) k
          else s
      | None => s
      end
  end.

Definition TrimLeft (s cutset : string) : string :=
  if (s =? "") || (cutset =? "") then s else trimLeftLoop cutset s.

Definition TrimRight (s cutset : string) : string :=
  if (s =? "") || (cutset =? "") then s
  else trimRightLoop cutset s (String.length s).

(** Go: [trimLeft(trimRight(s, cutset), cutset)], after the same test for
    an empty [s] or [cutset]. *)
Definition Trim (s cutset : string) : string :=
  if (s =? "") || (cutset =? "") then s
  else trimLeftLoop cutset (trimRightLoop cutset s (String.length s)).

End strings.

(* ------------------------------------------------------------------ *)
(** ** What the specification says about trimming

    "Remove trailing (leading) characters belonging to the supplied
    character set": these definitions follow the words of the
    specification, not the code; the theorems below compare the two. *)









(* ================================================================== *)
(** * Errors

    The error values this package can return: the one its own code makes
    with [fmt.Errorf] (an [*errors.errorString]), whatever the host's
    process layer reports (exit status, launch failure, cancellation), and
    the wrapper [errors.Join] builds. *)
#[warnings="-register-all"]
Inductive error : Type :=
| errorString (s : string)
| hostError (msg : string)
| joinError (errs : list error).




Module errors.

Definition New (text : string) : option error := Some (errorString text).

(** The non-nil values of [errs], in order. *)
Fixpoint nonNil (errs : list (option error)) : list error :=
  match errs with
  | [] => []
  | None :: rest => nonNil rest
  | Some e :: rest => e :: nonNil rest
  end.

(** [errors.Join(errs...)]: nil values are discarded; nil when every value
    is nil, otherwise an error wrapping the others. *)
Definition Join (errs : list (option error)) : option error :=
  let kept := nonNil errs in
  if Nat.eqb (List.length kept) 0 then None else Some (joinError kept).

End errors.

Module fmt.

(** The verb [%d] on an integer: its decimal digits, with a sign when
    negative. *)
Definition verb_d (n : Z) : string := NilZero.string_of_int (Z.to_int n).

(** [fmt.Sprintf(format, arg)] for a format with one [%d]. *)
Fixpoint Sprintf (format : string) (arg : Z) : string :=
  match format with
  | EmptyString => EmptyString
  | String c rest =>
      match rest with
      | String d rest' =>
          if Ascii.eqb c "%" && Ascii.eqb d "d" then verb_d arg ++ rest'
          else String c (Sprintf rest arg)
      | EmptyString => format
      end
  end.

(** [fmt.Errorf(format, arg)] without [%w]: [errors.New] of the text. *)
Definition Errorf (format : string) (arg : Z) : option error :=
  errors.New (Sprintf format arg).

End fmt.

(* ================================================================== *)
(** * The post-modifier *)

(** [type PostModifierTrimOption int], with its three constants numbered by
    [iota].  Any integer converts to the type, so an option is a [Z]. *)
Definition PostModifierTrimOption : Type := Z.

Definition PostModifierTrimRight : PostModifierTrimOption := 0%Z.
Definition PostModifierTrimLeft : PostModifierTrimOption := 1%Z.
Definition PostModifierTrimBoth : PostModifierTrimOption := 2%Z.

Record trimPostModifier : Type := {
  trimOpt : PostModifierTrimOption;
  trimChar : string
}.

Definition NewTrimPostModifier (option : PostModifierTrimOption)
  (char : string) : trimPostModifier :=
  {| trimOpt := option; trimChar := char |}.

(** [func (t *trimPostModifier) process(content string) (string, error)] *)
Definition process (t : trimPostModifier) (content : string)
  : string * option error :=
  if (trimOpt t =? PostModifierTrimRight)%Z then
    (strings.TrimRight content (trimChar t), None)
  else if (trimOpt t =? PostModifierTrimLeft)%Z then
    (strings.TrimLeft content (trimChar t), None)
  else if (trimOpt t =? PostModifierTrimBoth)%Z then
    (strings.Trim content (trimChar t), None)
  else
    (EmptyString, fmt.Errorf "unknown trim option: %d" (trimOpt t)).

(** The three variants the switch knows. *)
Definition known_option (o : PostModifierTrimOption) : Prop :=
  o = PostModifierTrimRight \/ o = PostModifierTrimLeft \/
  o = PostModifierTrimBoth.

Set Implicit Arguments.

(* ================================================================== *)
(** * The host: package [os/exec]

    [exec.Cmd] as far as this package decides it: the context it was made
    with, the argument vector (the program's name first), and the two
    output destinations, which are nil until someone sets them.  The field
    [Path], which [exec.Command] fills by looking the name up on the host,
    is the host's business like the run itself. *)
Record Cmd (Ctx Wr : Type) : Type := {
  Cmd_ctx : Ctx;
  Args : list string;
  Stdout : option Wr;
  Stderr : option Wr
}.

Unset Implicit Arguments.

(** What running a command does is the host's business.  [World] is the
    state of everything outside the program (processes, files, the sinks
    behind the writers); each method of [exec.Cmd] is a transition on it. *)
Class Host : Type := {
  GoContext : Type;
  Writer : Type;
  World : Type;
  Cmd_Run : Cmd GoContext Writer -> World -> option error * World;
  Cmd_Output :
    Cmd GoContext Writer -> World -> (list byte * option error) * World;
  Cmd_CombinedOutput :
    Cmd GoContext Writer -> World -> (list byte * option error) * World
}.

(** Computations that act on the host. *)
Definition M {host : Host} (A : Type) : Type := World -> A * World.

Definition ret {host : Host} {A : Type} (a : A) : M A := fun w => (a, w).

Definition bind {host : Host} {A B : Type} (m : M A) (k : A -> M B) : M B :=
  fun w => let (a, w') := m w in k a w'.

Declare Scope go_scope.
Delimit Scope go_scope with go.
Notation "x <- m ;; k" := (bind m (fun x => k))
  (at level 61, m at next level, right associativity) : go_scope.
Notation "' p <- m ;; k" := (bind m (fun x => let 'p := x in k))
  (at level 61, p pattern, m at next level, right associativity) : go_scope.

Section Command.
Context {host : Host}.

(** [exec.CommandContext(ctx, name, arg...)]: no destination is set. *)
Definition exec_CommandContext (ctx : GoContext) (name : string)
  (arg : list string) : Cmd GoContext Writer :=
  {| Cmd_ctx := ctx; Args := name :: arg; Stdout := None; Stderr := None |}.

(** [interface { process(content string) (string, error) }].  An
    implementation may act on the world besides computing its result. *)
Record RunnablePostModifier : Type := {
  modifier_process : string -> M (string * option error)
}.

(** A [*trimPostModifier] used as a [RunnablePostModifier]. *)
Definition asModifier (t : trimPostModifier) : RunnablePostModifier :=
  {| modifier_process := fun content => ret (process t content) |}.

Record commandRequest : Type := {
  ctx : GoContext;
  cmd : string;
  args : list string
}.

(** [type execCommand struct { commandRequest }] *)
Record execCommand : Type := {
  request : commandRequest
}.

Definition newCmd (e : execCommand) : Cmd GoContext Writer :=
  exec_CommandContext (ctx (request e)) (cmd (request e)) (args (request e)).

Definition Run (e : execCommand) : M (option error) :=
  Cmd_Run (newCmd e).

Definition RunStdout (e : execCommand) : M (list byte * option error) :=
  Cmd_Output (newCmd e).

Definition RunCombined (e : execCommand) : M (list byte * option error) :=
  Cmd_CombinedOutput (newCmd e).

(** The loop of [RunStdoutStr]: [err] is the variable the call of
    [RunStdout] assigned, [result] the string so far. *)
Fixpoint modifiersLoop (err : option error)
  (modifiers : list RunnablePostModifier) (result : string)
  : M (string * option error) :=
  match modifiers with
  | [] => ret (result, None)
  | modifier :: rest =>
      ('(procRes, procErr) <- modifier_process modifier result ;;
       match procErr with
       | Some _ => ret (result, errors.Join [err; procErr])
       | None => modifiersLoop err rest procRes
       end)%go
  end.

Definition RunStdoutStr (e : execCommand)
  (modifiers : list RunnablePostModifier) : M (string * option error) :=
  ('(bytes, err) <- RunStdout e ;;
   match err with
   | Some _ => ret (EmptyString, err)
   | None => modifiersLoop err modifiers (string_of_list_byte bytes)
   end)%go.

Definition RunCombinedStr (e : execCommand) : M (string * option error) :=
  ('(bytes, err) <- RunCombined e ;;
   match err with
   | Some _ => ret (EmptyString, err)
   | None => ret (string_of_list_byte bytes, None)
   end)%go.

Definition set_Stdout (c : Cmd GoContext Writer) (w : Writer) :=
  {| Cmd_ctx := Cmd_ctx c; Args := Args c;
     Stdout := Some w; Stderr := Stderr c |}.

Definition set_Stderr (c : Cmd GoContext Writer) (w : Writer) :=
  {| Cmd_ctx := Cmd_ctx c; Args := Args c;
     Stdout := Stdout c; Stderr := Some w |}.

(** A nil [io.Writer] argument is [None]. *)
Definition RunToWriter (e : execCommand) (stdout stderr : option Writer)
  : M (option error) :=
  let c := newCmd e in
  let c := match stdout with Some w => set_Stdout c w | None => c end in
  let c := match stderr with Some w => set_Stderr c w | None => c end in
  Cmd_Run c.

(** The factory method [Command(ctx, cmd, args...)] of [execCmdFactory]. *)
Definition Command (ctx0 : GoContext) (cmd0 : string) (args0 : list string)
  : execCommand :=
  {| request := {| ctx := ctx0; cmd := cmd0; args := args0 |} |}.

(* ------------------------------------------------------------------ *)
(** ** What the specification says about a modifier chain

    "Passed through the supplied Post-Modifiers in the order given, each
    consuming the previous one's output": the value the chain [ms] produces
    from [s] when every modifier succeeds, [None] as soon as one fails
    (the rest of the chain then does not run). *)
Fixpoint pipeline (ms : list RunnablePostModifier) (s : string)
  : M (option string) :=
  match ms with
  | [] => ret (Some s)
  | m :: rest =>
      (r <- modifier_process m s ;;
       match snd r with
       | None => pipeline rest (fst r)
       | Some _ => ret None
       end)%go
  end.

End Command.

(* ================================================================== *)
(** * A scripted host

    A test double for the operating system, used by the examples below.  Its
    world is a journal of what has run so far.  It knows two programs:
    [printf text], which writes [text] to standard output and succeeds, and
    [sh -c "printf hi; exit 1"], which writes [hi] and then exits with
    status 1, so that its output comes back together with an error, as
    [exec.Cmd.Output] returns it.  Any other program is not found. *)
Fixpoint same_argv (a b : list string) : bool :=
  match a, b with
  | [], [] => true
  | x :: a', y :: b' => (x =? y) && same_argv a' b'
  | _, _ => false
  end.

Definition scripted (argv : list string) : list byte * option error :=
  match argv with
  | [prog; text] =>
      if prog =? "printf" then (list_byte_of_string text, None)
      else ([], Some (hostError "executable file not found in $PATH"))
  | _ =>
      if same_argv argv ["sh"; "-c"; "printf hi; exit 1"]
      then (list_byte_of_string "hi", Some (hostError "exit status 1"))
      else ([], Some (hostError "executable file not found in $PATH"))
  end.

Definition journal : Type := list string.

Definition scripted_run (c : Cmd unit string) (w : journal)
  : (list byte * option error) * journal :=
  (scripted (Args c), (w ++ [("exec " ++ hd "" (Args c))%string])%list).

#[local] Instance scriptedHost : Host := {|
  GoContext := unit;
  Writer := string;
  World := journal;
  Cmd_Run := fun c w => let (r, w') := scripted_run c w in (snd r, w');
  Cmd_Output := scripted_run;
  Cmd_CombinedOutput := scripted_run
|}.

(** A modifier of the scripted host that writes [name] in the journal and
    then behaves as the trim modifier [t]. *)
Definition journalled_process (name : string) (t : trimPostModifier)
  (content : string) (w : journal) : (string * option error) * journal :=
  (process t content, (w ++ [name])%list).

Definition journalled (name : string) (t : trimPostModifier)
  : @RunnablePostModifier scriptedHost :=
  @Build_RunnablePostModifier scriptedHost (journalled_process name t).

Definition printf (text : string) : @execCommand scriptedHost :=
  Command (host := scriptedHost) tt "printf" [text].

Definition partial_then_fail : @execCommand scriptedHost :=
  Command (host := scriptedHost) tt "sh" ["-c"; "printf hi; exit 1"].

(** Three modifiers for the examples: two that trim and one whose option,
    7, is none of the known ones. *)
Definition trim_right_spaces : trimPostModifier :=
  NewTrimPostModifier PostModifierTrimRight " ".

Definition trim_left_xs : trimPostModifier :=
  NewTrimPostModifier PostModifierTrimLeft "x".

Definition bad_option : trimPostModifier := NewTrimPostModifier 7%Z " ".

(** A chain for the examples, each modifier leaving its name in the
    journal when it runs; the second one fails. *)
Definition failing_chain : list (@RunnablePostModifier scriptedHost) :=
  [journalled "first" trim_right_spaces; journalled "second" bad_option;
   journalled "third" trim_left_xs].

(* ================================================================== *)
(** * Facts about strings *)

Section StringFacts.

Lemma append_nil_r (s : string) : s ++ "" = s.
Proof. induction s as [|c s IH]; simpl; [reflexivity | now rewrite IH]. Qed.










End StringFacts.

(* ================================================================== *)
(** * Facts about the trimming loops *)

Section TrimFacts.
Variable cutset : string.

(** The loops as functions of the string alone. *)
Local Abbreviation trimL s := (strings.trimLeftLoop cutset s).
Local Abbreviation trimR s := (strings.trimRightLoop cutset s (String.length s)).











End TrimFacts.

(* ================================================================== *)
(** * The three functions of package [strings] *)

Section TrimFunctions.
Variables s cutset : string.

(** The test for an empty [s] or [cutset] is a short cut: the loops give
    the same answer. *)
Lemma trimLeftLoop_empty_cutset : strings.trimLeftLoop "" s = s.
Proof. now destruct s. Qed.

Lemma trimRightLoop_empty_cutset (n : nat) : strings.trimRightLoop "" s n = s.
Proof. destruct n as [|n]; simpl; [reflexivity | now destruct (get n s)]. Qed.

Lemma TrimLeft_loop : strings.TrimLeft s cutset = strings.trimLeftLoop cutset s.
Proof.
  unfold strings.TrimLeft.
  destruct (String.eqb_spec s "") as [-> | _]; [reflexivity|].
  destruct (String.eqb_spec cutset "") as [-> | _]; simpl; [|reflexivity].
  now rewrite trimLeftLoop_empty_cutset.
Qed.

Lemma TrimRight_loop :
  strings.TrimRight s cutset =
  strings.trimRightLoop cutset s (String.length s).
Proof.
  unfold strings.TrimRight.
  destruct (String.eqb_spec s "") as [-> | _]; [reflexivity|].
  destruct (String.eqb_spec cutset "") as [-> | _]; simpl; [|reflexivity].
  now rewrite trimRightLoop_empty_cutset.
Qed.

Lemma Trim_loop :
  strings.Trim s cutset =
  strings.trimLeftLoop cutset
    (strings.trimRightLoop cutset s (String.length s)).
Proof.
  unfold strings.Trim.
  destruct (String.eqb_spec s "") as [-> | _]; [reflexivity|].
  destruct (String.eqb_spec cutset "") as [-> | _]; simpl; [|reflexivity].
  now rewrite trimRightLoop_empty_cutset, trimLeftLoop_empty_cutset.
Qed.




End TrimFunctions.




(* ================================================================== *)
(** * The post-modifier's [process] *)

(** The four branches of the switch. *)
Lemma process_cases (t : trimPostModifier) (content : string) :
  (trimOpt t = PostModifierTrimRight /\
   process t content = (strings.TrimRight content (trimChar t), None)) \/
  (trimOpt t = PostModifierTrimLeft /\
   process t content = (strings.TrimLeft content (trimChar t), None)) \/
  (trimOpt t = PostModifierTrimBoth /\
   process t content = (strings.Trim content (trimChar t), None)) \/
  (~ known_option (trimOpt t) /\
   process t content =
   ("", fmt.Errorf "unknown trim option: %d" (trimOpt t))).
Proof.
  unfold process.
  destruct (Z.eqb_spec (trimOpt t) PostModifierTrimRight) as [H0 | H0];
    [now left|].
  destruct (Z.eqb_spec (trimOpt t) PostModifierTrimLeft) as [H1 | H1];
    [now right; left|].
  destruct (Z.eqb_spec (trimOpt t) PostModifierTrimBoth) as [H2 | H2];
    [now right; right; left|].
  right; right; right. split; [|reflexivity].
  now intros [H | [H | H]].
Qed.

Lemma Errorf_unknown_option (n : Z) :
  fmt.Errorf "unknown trim option: %d" n =
  Some (errorString ("unknown trim option: " ++ fmt.verb_d n)).
Proof.
  unfold fmt.Errorf, errors.New. do 2 f_equal.
  cbn [fmt.Sprintf Ascii.eqb Bool.eqb andb append].
  now rewrite append_nil_r.
Qed.

(** C4.  [process] fails exactly when the trim option is none of the three
    known variants.  It then returns the empty string together with an
    error whose message names the unknown option, whatever the content; for
    the three known variants it returns no error. *)
Theorem process_fails_iff_unknown_option
  (t : trimPostModifier) (content : string) :
  (snd (process t content) <> None <-> ~ known_option (trimOpt t)) /\
  (~ known_option (trimOpt t) ->
   process t content =
   ("", Some (errorString
                ("unknown trim option: " ++ fmt.verb_d (trimOpt t))))) /\
  (known_option (trimOpt t) -> snd (process t content) = None).
Proof.
  assert (Hknown : known_option (trimOpt t) -> snd (process t content) = None).
  { intros Hk.
    destruct (process_cases t content)
      as [[_ ->] | [[_ ->] | [[_ ->] | [Hu _]]]]; trivial.
    now destruct Hu. }
  assert (Hunknown : ~ known_option (trimOpt t) ->
            process t content = ("", fmt.Errorf "unknown trim option: %d" (trimOpt t))).
  { intros Hu.
    destruct (process_cases t content)
      as [[H _] | [[H _] | [[H _] | [_ ->]]]]; trivial;
      destruct Hu; unfold known_option; tauto. }
  repeat split; trivial.
  - intros Herr Hk. now apply Herr, Hknown.
  - intros Hu. rewrite (Hunknown Hu), Errorf_unknown_option. discriminate.
  - intros Hu. now rewrite (Hunknown Hu), Errorf_unknown_option.
Qed.






(* ================================================================== *)
(** * The modifier chain of [RunStdoutStr] *)

Section Chain.
Context {host : Host}.
Implicit Types (ms pre post : list RunnablePostModifier).
Implicit Types (m : RunnablePostModifier) (w : World) (err : option error).

(** When every modifier succeeds the loop returns what the chain
    produces, and no error. *)
Lemma modifiersLoop_succeeds err ms (s v : string) w w' :
  pipeline ms s w = (Some v, w') ->
  modifiersLoop err ms s w = ((v, None), w').
Proof.
  revert s w. induction ms as [|m ms IH]; intros s w; simpl.
  - unfold ret. now intros [= -> ->].
  - unfold bind. destruct (modifier_process m s w) as [[res [perr|]] w1];
      simpl; [discriminate | apply IH].
Qed.

(** A chain fails at one modifier, which everything before it reached. *)
Lemma pipeline_fails_at ms (s : string) w w2 :
  pipeline ms s w = (None, w2) ->
  exists pre m post v w1 junk perr,
    ms = (pre ++ m :: post)%list /\
    pipeline pre s w = (Some v, w1) /\
    modifier_process m v w1 = ((junk, Some perr), w2).
Proof.
  revert s w. induction ms as [|m ms IH]; intros s w; simpl.
  - discriminate.
  - unfold bind.
    destruct (modifier_process m s w) as [[res [perr|]] w1] eqn:Hm; simpl.
    + unfold ret. intros [= <-].
      now exists [], m, ms, s, w, res, perr.
    + intros Hrest.
      destruct (IH _ _ Hrest)
        as (pre & m' & post & v & w1' & junk & perr & -> & Hpre & Hm').
      exists (m :: pre), m', post, v, w1', junk, perr.
      repeat split; trivial. simpl. unfold bind. now rewrite Hm.
Qed.

(** The loop returns at the first modifier that fails: with the string it
    was about to hand to that modifier, and in the world that modifier
    left. *)
Lemma modifiersLoop_stops err pre m post (s v junk : string) perr w w1 w2 :
  pipeline pre s w = (Some v, w1) ->
  modifier_process m v w1 = ((junk, Some perr), w2) ->
  modifiersLoop err (pre ++ m :: post) s w =
  ((v, errors.Join [err; Some perr]), w2).
Proof.
  revert s w. induction pre as [|m0 pre IH]; intros s w; simpl.
  - unfold ret, bind. intros [= -> ->] Hm. now rewrite Hm.
  - unfold bind. destruct (modifier_process m0 s w) as [[res [e0|]] w0];
      simpl; [discriminate | apply IH].
Qed.


(** [RunStdoutStr] after its call of [RunStdout]. *)
Lemma RunStdoutStr_unfold (e : execCommand) ms w :
  RunStdoutStr e ms w =
  let '((bytes, err), w0) := RunStdout e w in
  match err with
  | Some _ => (("", err), w0)
  | None => modifiersLoop None ms (string_of_list_byte bytes) w0
  end.
Proof.
  unfold RunStdoutStr, bind.
  destruct (RunStdout e w) as [[bytes [err|]] w0]; reflexivity.
Qed.

End Chain.

(* ================================================================== *)
(** * The operations of [execCommand] *)

Section RunProperties.
Context {host : Host}.
Implicit Types (e : execCommand) (ms pre post : list RunnablePostModifier).
Implicit Types (m : RunnablePostModifier) (w : World) (bytes : list byte).

(** C1.  If [RunStdout] succeeds and some modifier of the chain fails,
    [RunStdoutStr] stops at the first modifier [m] that fails: the
    modifiers [pre] before it all succeeded, each on the output of the one
    before, and produced [v]; the string returned is [v], the value [m] was
    given; the world is left as [m] left it, so none of the modifiers
    [post] after it ran; and the error returned is the join of
    [RunStdout]'s error with the error of [m]. *)
Theorem RunStdoutStr_stops_at_first_failure e ms w bytes w0 w2 :
  RunStdout e w = ((bytes, None), w0) ->
  pipeline ms (string_of_list_byte bytes) w0 = (None, w2) ->
  exists pre m post v w1 junk perr,
    ms = (pre ++ m :: post)%list /\
    pipeline pre (string_of_list_byte bytes) w0 = (Some v, w1) /\
    modifier_process m v w1 = ((junk, Some perr), w2) /\
    RunStdoutStr e ms w =
    ((v, errors.Join [snd (fst (RunStdout e w)); Some perr]), w2).
Proof.
  intros Hrun Hfail.
  destruct (pipeline_fails_at _ _ _ _ Hfail)
    as (pre & m & post & v & w1 & junk & perr & -> & Hpre & Hm).
  exists pre, m, post, v, w1, junk, perr. repeat split; trivial.
  rewrite RunStdoutStr_unfold, Hrun. simpl.
  exact (modifiersLoop_stops None _ _ post _ _ _ _ _ _ _ Hpre Hm).
Qed.

(** C2, as amended.  When a modifier fails and the modifiers before it
    have left the string as it was captured (in particular when it is the
    first of the chain), [RunStdoutStr] returns the original string, the
    bytes of [RunStdout] decoded, alongside a joined error. *)
Theorem RunStdoutStr_returns_capture_when_unchanged
  e pre m post w bytes w0 w1 junk perr w2 :
  RunStdout e w = ((bytes, None), w0) ->
  pipeline pre (string_of_list_byte bytes) w0 =
    (Some (string_of_list_byte bytes), w1) ->
  modifier_process m (string_of_list_byte bytes) w1 =
    ((junk, Some perr), w2) ->
  RunStdoutStr e (pre ++ m :: post) w =
  ((string_of_list_byte bytes, Some (joinError [perr])), w2).
Proof.
  intros Hrun Hpre Hm.
  rewrite RunStdoutStr_unfold, Hrun. simpl.
  now rewrite (modifiersLoop_stops None _ _ post _ _ _ _ _ _ _ Hpre Hm).
Qed.

(** C3, as amended.  With no modifiers [RunStdoutStr] returns the error of
    [RunStdout] as it is; the string is the bytes of [RunStdout] decoded
    when there is no error, and the empty string when there is one,
    whatever the bytes. *)
Theorem RunStdoutStr_without_modifiers e w bytes err w' :
  RunStdout e w = ((bytes, err), w') ->
  RunStdoutStr e [] w =
  ((match err with
    | None => string_of_list_byte bytes
    | Some _ => ""
    end, err), w').
Proof.
  intros Hrun. rewrite RunStdoutStr_unfold, Hrun.
  now destruct err.
Qed.

(** C7.  When [RunCombined] returns an error, [RunCombinedStr] returns the
    empty string with that error, whatever bytes came with it; when it
    returns none, [RunCombinedStr] returns the bytes decoded and no
    error. *)
Theorem RunCombinedStr_drops_output_on_error e w bytes err w' :
  RunCombined e w = ((bytes, err), w') ->
  RunCombinedStr e w =
  ((match err with
    | None => string_of_list_byte bytes
    | Some _ => ""
    end, err), w').
Proof.
  intros Hrun. unfold RunCombinedStr, bind. rewrite Hrun.
  now destruct err.
Qed.

(** C8.  [RunToWriter] runs one command [c], and its error is the error of
    that run.  [c] is the command of [Run] (same context, program and
    arguments) with each supplied sink installed as the destination of its
    stream and each omitted one left as [exec.CommandContext] made it, that
    is unset; with both omitted [RunToWriter] is [Run]. *)
Theorem RunToWriter_installs_supplied_sinks
  e (stdout stderr : option Writer) :
  exists c : Cmd GoContext Writer,
    RunToWriter e stdout stderr = Cmd_Run c /\
    Stdout c = stdout /\ Stderr c = stderr /\
    (stdout = None -> Stdout c = Stdout (newCmd e)) /\
    (stderr = None -> Stderr c = Stderr (newCmd e)) /\
    Cmd_ctx c = ctx (request e) /\
    Args c = cmd (request e) :: args (request e) /\
    RunToWriter e None None = Run e.
Proof.
  destruct stdout as [out|], stderr as [err|]; eexists;
    (split; [reflexivity|]); simpl; repeat split; trivial; discriminate.
Qed.


End RunProperties.

(* ================================================================== *)
(** * The theorems on the scripted host *)

(** A chain whose second modifier fails: the first trims "xa  " to "xa",
    the third would trim the "x". *)
Example RunStdoutStr_chain_stops :
  RunStdoutStr (printf "xa  ") failing_chain [] =
  (("xa", Some (joinError [errorString "unknown trim option: 7"])),
   ["exec printf"; "first"; "second"]).
Proof. reflexivity. Qed.

(** The same chain without the failing modifier runs to its end. *)
Example RunStdoutStr_chain_completes :
  RunStdoutStr (printf "xa  ")
    [journalled "first" trim_right_spaces; journalled "third" trim_left_xs]
    [] =
  (("a", None), ["exec printf"; "first"; "third"]).
Proof. reflexivity. Qed.

Lemma RunStdoutStr_stops_at_first_failure_witness :
  exists pre m post v w1 junk perr,
    failing_chain = (pre ++ m :: post)%list /\
    pipeline pre "xa  " ["exec printf"] = (Some v, w1) /\
    modifier_process m v w1 =
      ((junk, Some perr), ["exec printf"; "first"; "second"]) /\
    RunStdoutStr (printf "xa  ") failing_chain [] =
    ((v, errors.Join [None; Some perr]),
     ["exec printf"; "first"; "second"]).
Proof.
  exact (RunStdoutStr_stops_at_first_failure
           (printf "xa  ") failing_chain [] (list_byte_of_string "xa  ")
           ["exec printf"] ["exec printf"; "first"; "second"]
           eq_refl eq_refl).
Defined.

(** C2 as stated fails: the first modifier succeeds and changes the
    captured "xa  " to "xa", the second fails, and [RunStdoutStr] returns
    "xa", not the original string. *)
Lemma RunStdoutStr_returns_changed_string :
  RunStdout (printf "xa  ") [] =
    ((list_byte_of_string "xa  ", None), ["exec printf"]) /\
  process trim_right_spaces "xa  " = ("xa", None) /\
  process bad_option "xa" =
    ("", Some (errorString "unknown trim option: 7")) /\
  RunStdoutStr (printf "xa  ")
    [asModifier trim_right_spaces; asModifier bad_option] [] =
    (("xa", Some (joinError [errorString "unknown trim option: 7"])),
     ["exec printf"]) /\
  "xa" <> string_of_list_byte (list_byte_of_string "xa  ").
Proof. repeat split; discriminate. Qed.

Lemma RunStdoutStr_returns_capture_when_unchanged_witness :
  RunStdoutStr (printf "xa  ")
    ([] ++ asModifier bad_option :: [asModifier trim_left_xs]) [] =
  (("xa  ", Some (joinError [errorString "unknown trim option: 7"])),
   ["exec printf"]).
Proof.
  exact (RunStdoutStr_returns_capture_when_unchanged
           (printf "xa  ") [] (asModifier bad_option)
           [asModifier trim_left_xs] [] (list_byte_of_string "xa  ")
           ["exec printf"] ["exec printf"] ""
           (errorString "unknown trim option: 7") ["exec printf"]
           eq_refl eq_refl eq_refl).
Defined.

(** C3 as stated fails: the command writes "hi" and exits with status 1,
    [RunStdout] returns these bytes with the error, and [RunStdoutStr]
    returns the empty string, not "hi". *)
Lemma RunStdoutStr_drops_bytes_of_failed_run :
  RunStdout partial_then_fail [] =
    ((list_byte_of_string "hi", Some (hostError "exit status 1")),
     ["exec sh"]) /\
  RunStdoutStr partial_then_fail [] [] =
    (("", Some (hostError "exit status 1")), ["exec sh"]) /\
  "" <> string_of_list_byte (list_byte_of_string "hi").
Proof. repeat split; discriminate. Qed.

Lemma RunStdoutStr_without_modifiers_witness :
  RunStdoutStr partial_then_fail [] [] =
  (("", Some (hostError "exit status 1")), ["exec sh"]).
Proof.
  exact (RunStdoutStr_without_modifiers
           partial_then_fail [] (list_byte_of_string "hi")
           (Some (hostError "exit status 1")) ["exec sh"] eq_refl).
Defined.

Lemma RunCombinedStr_drops_output_on_error_witness :
  RunCombinedStr partial_then_fail [] =
  (("", Some (hostError "exit status 1")), ["exec sh"]).
Proof.
  exact (RunCombinedStr_drops_output_on_error
           partial_then_fail [] (list_byte_of_string "hi")
           (Some (hostError "exit status 1")) ["exec sh"] eq_refl).
Defined.

(** A run that succeeds: the bytes come back decoded. *)
Example RunCombinedStr_of_success :
  RunCombinedStr (printf "ok") [] = (("ok", None), ["exec printf"]).
Proof. reflexivity. Qed.


(** The example of the specification: "\tvalue  " through trim-right of
    " " and then trim-left of "\t" is "value". *)
Example RunStdoutStr_trims_value :
  RunStdoutStr (printf (String (ascii_of_nat 9) "value  "))
    [asModifier (NewTrimPostModifier PostModifierTrimRight " ");
     asModifier (NewTrimPostModifier PostModifierTrimLeft
                   (String (ascii_of_nat 9) ""))]
    [] =
  (("value", None), ["exec printf"]).
Proof. reflexivity. Qed.

(** Only a standard output sink: the standard error of the command run
    stays unset. *)
Example RunToWriter_stdout_only :
  RunToWriter (printf "ok") (Some "buffer") None [] =
  Cmd_Run {| Cmd_ctx := tt; Args := ["printf"; "ok"];
             Stdout := Some "buffer"; Stderr := None |} [].
Proof. reflexivity. Qed.

(* ================================================================== *)
(** * More on [process]: ends, padding, cutsets *)

Section TrimMore.
Variable cutset : string.
Local Abbreviation trimL s := (strings.trimLeftLoop cutset s).
Local Abbreviation trimR s := (strings.trimRightLoop cutset s (String.length s)).






End TrimMore.



(** [process] on one of the three known options, through the loops. *)
Lemma process_right (cutset content : string) :
  process (NewTrimPostModifier PostModifierTrimRight cutset) content =
  (strings.trimRightLoop cutset content (String.length content), None).
Proof. unfold process; simpl. now rewrite TrimRight_loop. Qed.

Lemma process_left (cutset content : string) :
  process (NewTrimPostModifier PostModifierTrimLeft cutset) content =
  (strings.trimLeftLoop cutset content, None).
Proof. unfold process; simpl. now rewrite TrimLeft_loop. Qed.

Lemma process_both (cutset content : string) :
  process (NewTrimPostModifier PostModifierTrimBoth cutset) content =
  (strings.trimLeftLoop cutset
     (strings.trimRightLoop cutset content (String.length content)), None).
Proof. unfold process; simpl. now rewrite Trim_loop. Qed.

(** A modifier is its option and its cutset. *)
Lemma trimPostModifier_eta (t : trimPostModifier) :
  t = NewTrimPostModifier (trimOpt t) (trimChar t).
Proof. now destruct t. Qed.

(** The branches of [process] for a modifier whose option is known. *)
Lemma process_known (t : trimPostModifier) (content : string) :
  known_option (trimOpt t) ->
  process t content =
  (strings.trimRightLoop (trimChar t) content (String.length content), None)
  \/ process t content = (strings.trimLeftLoop (trimChar t) content, None)
  \/ process t content =
     (strings.trimLeftLoop (trimChar t)
        (strings.trimRightLoop (trimChar t) content (String.length content)),
      None).
Proof.
  intros Hk. rewrite (trimPostModifier_eta t) at 1 3 5.
  destruct Hk as [-> | [-> | ->]].
  - left. apply process_right.
  - right; left. apply process_left.
  - right; right. apply process_both.
Qed.










(** The decimal digits of an integer determine it. *)
Lemma verb_d_inj (n m : Z) : fmt.verb_d n = fmt.verb_d m -> n = m.
Proof.
  unfold fmt.verb_d. intros H. apply DecimalZ.to_int_inj.
  assert (Hread : forall z,
             NilZero.int_of_string (NilZero.string_of_int (Z.to_int z)) =
             Some (Z.to_int z)).
  { intros z. apply NilZero.isi; destruct z; simpl; try discriminate;
      intros [= E]; now apply DecimalPos.Unsigned.to_uint_nonnil in E. }
  apply (f_equal NilZero.int_of_string) in H.
  rewrite !Hread in H. now injection H.
Qed.

Lemma process_unknown (t : trimPostModifier) (content : string) :
  ~ known_option (trimOpt t) ->
  process t content =
  ("", Some (errorString
               ("unknown trim option: " ++ fmt.verb_d (trimOpt t)))).
Proof.
  intros Hu. rewrite <- Errorf_unknown_option.
  destruct (process_cases t content)
    as [[H _] | [[H _] | [[H _] | [_ E]]]]; trivial;
    destruct Hu; unfold known_option; tauto.
Qed.

(** X6.  The error of an unknown option tells which option it was: two
    calls of [process] with unknown options return the same thing exactly
    when the options are the same, whatever the inputs and cutsets. *)
Theorem process_error_identifies_option
  (t t' : trimPostModifier) (content content' : string) :
  ~ known_option (trimOpt t) -> ~ known_option (trimOpt t') ->
  (process t content = process t' content' <-> trimOpt t = trimOpt t').
Proof.
  intros Hu Hu'. rewrite (process_unknown t content Hu).
  rewrite (process_unknown t' content' Hu'). split.
  - intros [= E]. now apply verb_d_inj in E.
  - now intros ->.
Qed.

Lemma seven_is_unknown : ~ known_option 7%Z.
Proof. intros [H | [H | H]]; discriminate H. Defined.

Lemma process_error_identifies_option_witness :
  process (NewTrimPostModifier 7%Z " ") "a " =
  process (NewTrimPostModifier 7%Z "x") "xb" <-> 7%Z = 7%Z.
Proof.
  exact (process_error_identifies_option
           (NewTrimPostModifier 7%Z " ") (NewTrimPostModifier 7%Z "x")
           "a " "xb" seven_is_unknown seven_is_unknown).
Defined.







(* ================================================================== *)
(** * More on [RunStdoutStr]: chains that succeed, chains of trims *)

Section ChainMore.
Context {host : Host}.
Implicit Types (e : execCommand) (ms pre post : list RunnablePostModifier).
Implicit Types (m : RunnablePostModifier) (w : World) (bytes : list byte).
Implicit Types (ts : list trimPostModifier) (err : option error).

(** A join with a modifier's error in it is an error. *)
Lemma Join_with_error err (perr : error) :
  errors.Join [err; Some perr] <> None.
Proof. now destruct err. Qed.

(** A loop that returns no error has run the whole chain. *)
Lemma modifiersLoop_without_error err ms (s v : string) w w' :
  modifiersLoop err ms s w = ((v, None), w') ->
  pipeline ms s w = (Some v, w').
Proof.
  revert s w. induction ms as [|m ms IH]; intros s w; simpl.
  - unfold ret. now intros [= -> ->].
  - unfold bind. destruct (modifier_process m s w) as [[res [perr|]] w1];
      simpl; [|apply IH].
    unfold ret. intros [= _ E]. now apply Join_with_error in E.
Qed.

(** The loop over a chain in two parts. *)
Lemma modifiersLoop_app err ms ms' (s : string) w :
  modifiersLoop err (ms ++ ms') s w =
  match modifiersLoop err ms s w with
  | ((r, None), w1) => modifiersLoop err ms' r w1
  | failed => failed
  end.
Proof.
  revert s w. induction ms as [|m ms IH]; intros s w; simpl.
  - reflexivity.
  - unfold bind. destruct (modifier_process m s w) as [[res [perr|]] w1].
    + unfold ret. destruct (errors.Join [err; Some perr]) eqn:E;
        [reflexivity | now apply Join_with_error in E].
    + apply IH.
Qed.

(** X7.  After a successful [RunStdout], [RunStdoutStr] returns a string
    without an error exactly when every modifier of the chain succeeds,
    each on the output of the one before; the string is then what the last
    one produced and the world what the last one left. *)
Theorem RunStdoutStr_succeeds_iff_chain_does e ms w bytes w0 (v : string) w1 :
  RunStdout e w = ((bytes, None), w0) ->
  (RunStdoutStr e ms w = ((v, None), w1) <->
   pipeline ms (string_of_list_byte bytes) w0 = (Some v, w1)).
Proof.
  intros Hrun. rewrite RunStdoutStr_unfold, Hrun. simpl. split.
  - apply modifiersLoop_without_error.
  - apply modifiersLoop_succeeds.
Qed.

(** X8.  When [RunStdout] fails, [RunStdoutStr] returns the empty string
    and that error at once, whatever the chain: the world is the one
    [RunStdout] left, so no modifier has run. *)
Theorem RunStdoutStr_runs_no_modifier_after_failure
  e ms w bytes (rerr : error) w0 :
  RunStdout e w = ((bytes, Some rerr), w0) ->
  RunStdoutStr e ms w = (("", Some rerr), w0).
Proof. intros Hrun. now rewrite RunStdoutStr_unfold, Hrun. Qed.

(** X9.  A chain in two parts: [RunStdoutStr] with [ms ++ ms'] does what it
    does with [ms] and, if that returns no error, goes on through [ms']
    from the string and the world it reached; an error of the first part
    is the result and nothing of [ms'] runs. *)
Theorem RunStdoutStr_chain_in_two_parts e ms ms' w :
  RunStdoutStr e (ms ++ ms') w =
  match RunStdoutStr e ms w with
  | ((r, None), w1) => modifiersLoop None ms' r w1
  | failed => failed
  end.
Proof.
  rewrite !RunStdoutStr_unfold.
  destruct (RunStdout e w) as [[bytes [rerr|]] w0]; [reflexivity|].
  apply modifiersLoop_app.
Qed.



Lemma trims_loop_error err ts (s : string) w :
  snd (fst (modifiersLoop err (map asModifier ts) s w)) = None <->
  Forall (fun t => known_option (trimOpt t)) ts.
Proof.
  revert s. induction ts as [|t ts IH]; intros s; simpl.
  - split; [constructor | reflexivity].
  - unfold bind, ret. rewrite Forall_cons_iff.
    destruct (process_cases t s)
      as [[Ho ->] | [[Ho ->] | [[Ho ->] | [Hu ->]]]].
    + rewrite IH. unfold known_option. tauto.
    + rewrite IH. unfold known_option. tauto.
    + rewrite IH. unfold known_option. tauto.
    + rewrite Errorf_unknown_option. simpl. split.
      * intros E. now apply Join_with_error in E.
      * now intros [Hk _].
Qed.

(** X11.  After a successful [RunStdout], [RunStdoutStr] with trim
    modifiers only returns no error exactly when every modifier of the
    chain has one of the three known options. *)
Theorem RunStdoutStr_trims_fail_iff_unknown_option e ts w bytes w0 :
  RunStdout e w = ((bytes, None), w0) ->
  (snd (fst (RunStdoutStr e (map asModifier ts) w)) = None <->
   Forall (fun t => known_option (trimOpt t)) ts).
Proof.
  intros Hrun. rewrite RunStdoutStr_unfold, Hrun. simpl.
  apply trims_loop_error.
Qed.

Lemma trims_loop_first_unknown err (known : list trimPostModifier)
  (t : trimPostModifier) ts (s : string) w :
  Forall (fun k => known_option (trimOpt k)) known ->
  ~ known_option (trimOpt t) ->
  snd (fst (modifiersLoop err (map asModifier (known ++ t :: ts)) s w)) =
  errors.Join
    [err; Some (errorString
                  ("unknown trim option: " ++ fmt.verb_d (trimOpt t)))].
Proof.
  intros Hknown Hu. revert s.
  induction Hknown as [|k known Hk _ IH]; intros s; simpl; unfold bind, ret.
  - now rewrite (process_unknown t s Hu).
  - destruct (process_known k s Hk) as [-> | [-> | ->]]; apply IH.
Qed.

(** X12.  After a successful [RunStdout], the error of a chain of trim
    modifiers is that of the first modifier with an unknown option, alone
    in the join, and its message names that option; the modifiers after it
    do not matter. *)
Theorem RunStdoutStr_reports_first_unknown_option
  e (known : list trimPostModifier) (t : trimPostModifier) ts w bytes w0 :
  RunStdout e w = ((bytes, None), w0) ->
  Forall (fun k => known_option (trimOpt k)) known ->
  ~ known_option (trimOpt t) ->
  snd (fst (RunStdoutStr e (map asModifier (known ++ t :: ts)) w)) =
  Some (joinError
          [errorString
             ("unknown trim option: " ++ fmt.verb_d (trimOpt t))]).
Proof.
  intros Hrun Hknown Hu. rewrite RunStdoutStr_unfold, Hrun. simpl.
  now rewrite (trims_loop_first_unknown None known t ts _ w0 Hknown Hu).
Qed.



End ChainMore.

(* ================================================================== *)
(** * The further theorems on the scripted host *)

Lemma RunStdoutStr_succeeds_iff_chain_does_witness :
  RunStdoutStr (printf "xa  ")
    [journalled "first" trim_right_spaces; journalled "third" trim_left_xs]
    [] = (("a", None), ["exec printf"; "first"; "third"]) <->
  pipeline
    [journalled "first" trim_right_spaces; journalled "third" trim_left_xs]
    "xa  " ["exec printf"] =
  (Some "a", ["exec printf"; "first"; "third"]).
Proof.
  exact (RunStdoutStr_succeeds_iff_chain_does
           (printf "xa  ")
           [journalled "first" trim_right_spaces;
            journalled "third" trim_left_xs]
           [] (list_byte_of_string "xa  ") ["exec printf"] "a"
           ["exec printf"; "first"; "third"] eq_refl).
Defined.

Lemma RunStdoutStr_runs_no_modifier_after_failure_witness :
  RunStdoutStr partial_then_fail failing_chain [] =
  (("", Some (hostError "exit status 1")), ["exec sh"]).
Proof.
  exact (RunStdoutStr_runs_no_modifier_after_failure
           partial_then_fail failing_chain [] (list_byte_of_string "hi")
           (hostError "exit status 1") ["exec sh"] eq_refl).
Defined.

Lemma RunStdoutStr_trims_fail_iff_unknown_option_witness :
  snd (fst (RunStdoutStr (printf "xa  ")
              (map asModifier [trim_right_spaces; bad_option]) [])) = None
  <->
  Forall (fun t => known_option (trimOpt t)) [trim_right_spaces; bad_option].
Proof.
  exact (RunStdoutStr_trims_fail_iff_unknown_option
           (printf "xa  ") [trim_right_spaces; bad_option] []
           (list_byte_of_string "xa  ") ["exec printf"] eq_refl).
Defined.

Lemma RunStdoutStr_reports_first_unknown_option_witness :
  snd (fst (RunStdoutStr (printf "xa  ")
              (map asModifier
                 ([trim_right_spaces] ++ bad_option :: [trim_left_xs]))
              [])) =
  Some (joinError [errorString "unknown trim option: 7"]).
Proof.
  exact (RunStdoutStr_reports_first_unknown_option
           (printf "xa  ") [trim_right_spaces] bad_option [trim_left_xs] []
           (list_byte_of_string "xa  ") ["exec printf"] eq_refl
           (Forall_cons trim_right_spaces (or_introl eq_refl)
              (Forall_nil _))
           seven_is_unknown).
Defined.
